(** * The Beta-Bernoulli update notebook: [Bern] and [learn_p]

    A shallow embedding of the two functions of the notebook
    [beta-bernoulli-update.ipynb]:

    - [Bern p] draws once from the module-level generator [rng] and compares
      the draw with [p];
    - [learn_p p n plot] starts from the prior [alpha = beta = 1], runs
      [for step in range(n)], redraws the figure when [plot == True], flips
      the coin and bumps one of the two counters; after the loop it redraws
      the figure once more, prints three point estimates and returns
      [(alpha, beta)].

    Python's local variables are bound by assignment only, so a variable
    that no executed statement assigned raises [UnboundLocalError] when it is
    read.  [learn_p] reads [step] and [Y] after the loop; the embedding keeps
    them as optional fields of the frame and raises where Python does.

    The counters are Python integers (unbounded): [Z].  A float is
    represented by the number it denotes, with the two infinities and NaN;
    comparison is exact on floats, so [<] is decided on the denoted values.
    The printed estimates are kept as the exact quotients of their operands:
    the digits Python prints are the binary64 roundings of these quotients,
    and neither the rounding nor the [OverflowError] of converting a counter
    beyond the binary64 range (about 1.8e308) is represented.  A division by
    zero raises [ZeroDivisionError] as in Python.

    The calls into matplotlib, IPython and [print] are recorded in a log;
    they are taken not to raise.

    After the statements about [Bern] and [learn_p] come the rest of the
    notebook (the second revision of [learn_p], the call with the default
    arguments and the last cell) and further properties of the calls: how
    they end, what they consume of the generator, what they draw and print,
    and how calls compose. *)

From Stdlib Require Import String ZArith QArith List Permutation Bool Lia.
Import ListNotations.

Open Scope Z_scope.

(** ** Python values *)

Module Py.

(** A float through the value it denotes. *)
Inductive float : Type :=
| Finite (q : Q)
| Inf (negative : bool)
| NaN.

(** [x < y] on floats: false as soon as one side is NaN. *)
Definition lt (x y : float) : bool :=
  match x, y with
  | NaN, _ => false
  | _, NaN => false
  | Finite a, Finite b => match (a ?= b)%Q with Lt => true | _ => false end
  | Finite _, Inf negative => negb negative
  | Inf negative, Finite _ => negative
  | Inf a, Inf b => a && negb b
  end.

(** [x <= y] on floats. *)
Definition le (x y : float) : bool :=
  match x, y with
  | NaN, _ => false
  | _, NaN => false
  | Finite a, Finite b => match (a ?= b)%Q with Gt => false | _ => true end
  | Finite _, Inf negative => negb negative
  | Inf negative, Finite _ => negative
  | Inf a, Inf b => a || negb b
  end.

(** The exceptions [learn_p] can raise. *)
Inductive exn : Type :=
| UnboundLocalError (name : string)
| ZeroDivisionError.

(** [range(n)]: [0, 1, ..., n-1], empty when [n <= 0]. *)
Definition range (n : Z) : list Z := map Z.of_nat (seq 0 (Z.to_nat n)).

End Py.

Import Py.

(** ** The world outside the function: generator and display *)

(** The density curve [st.beta.pdf(X, alpha, beta)] on the grid
    [X = np.linspace(0,1,201)], named by its two parameters. *)
Definition curve : Type := (Z * Z)%type.

(** Calls that leave the function, in the order they happen. *)
Inductive call : Type :=
| subplots
| cla
| set_xlim (lo hi : Z)
| set_ylim (lo hi : Z)
| set_title (step N1 N0 : Z)
| plot_curve (Y : curve)
| plot_line (p : float)
| display
| clear_output
| pause
| print (MAP mean median : Q).

(** [draws] is the sequence the generator [rng] will produce, [cursor] the
    number of draws already consumed, [log] the calls made so far (latest
    first). *)
Record world : Type := mkWorld {
  draws : nat -> Q;
  cursor : nat;
  log : list call
}.

Definition called (c : call) (w : world) : world :=
  mkWorld (draws w) (cursor w) (c :: log w).

Definition advanced (w : world) : world :=
  mkWorld (draws w) (S (cursor w)) (log w).

(** ** Computations that may raise *)

Inductive outcome (A : Type) : Type :=
| Returns (a : A) (w : world)
| Raises (e : exn) (w : world).

Arguments Returns {A} a w.
Arguments Raises {A} e w.

Definition M (A : Type) : Type := world -> outcome A.

Definition ret {A} (a : A) : M A := fun w => Returns a w.

Definition raise {A} (e : exn) : M A := fun w => Raises e w.

Definition bind {A B} (m : M A) (k : A -> M B) : M B :=
  fun w => match m w with
           | Returns a w' => k a w'
           | Raises e w' => Raises e w'
           end.

Notation "x <- m ;; k" := (bind m (fun x => k))
  (at level 61, m at next level, right associativity).
Notation "m ;; k" := (bind m (fun _ => k))
  (at level 61, right associativity).

Definition emit (c : call) : M unit := fun w => Returns tt (called c w).

(** Reading a local variable. *)
Definition read {A} (name : string) (v : option A) : M A :=
  match v with
  | Some a => ret a
  | None => raise (UnboundLocalError name)
  end.

(** [x / y] on numbers. *)
Definition truediv (x y : Q) : M Q :=
  if Qeq_bool y 0 then raise ZeroDivisionError else ret (x / y)%Q.

(** [for x in xs: s = body(x, s)] *)
Fixpoint for_each {S : Type} (xs : list Z) (body : Z -> S -> M S) (s : S) : M S :=
  match xs with
  | [] => ret s
  | x :: xs' => s' <- body x s ;; for_each xs' body s'
  end.

(** ** [Bern] *)

(** [rng.random()] *)
Definition rng_random : M Q :=
  fun w => Returns (draws w (cursor w)) (advanced w).

(** [return 1 if rng.random() < p else 0] *)
Definition Bern (p : float) : M Z :=
  x <- rng_random ;;
  ret (if lt (Finite x) p then 1 else 0).

(** ** [learn_p] *)

(** The local variables of [learn_p] that are assigned after entry. *)
Record frame : Type := mkFrame {
  alpha : Z;
  beta : Z;
  step : option Z;
  Y : option curve;
  flip : option Z
}.

(** [alpha = beta = 1] *)
Definition prior : frame := mkFrame 1 1 None None None.

Definition set_step (v : Z) (f : frame) : frame :=
  mkFrame (alpha f) (beta f) (Some v) (Y f) (flip f).

Definition set_Y (v : curve) (f : frame) : frame :=
  mkFrame (alpha f) (beta f) (step f) (Some v) (flip f).

Definition set_flip (v : Z) (f : frame) : frame :=
  mkFrame (alpha f) (beta f) (step f) (Y f) (Some v).

Definition set_beta (v : Z) (f : frame) : frame :=
  mkFrame (alpha f) v (step f) (Y f) (flip f).

Definition set_alpha (v : Z) (f : frame) : frame :=
  mkFrame v (beta f) (step f) (Y f) (flip f).

(** The drawing block, as it stands inside the loop.  (The two revisions of
    the notebook differ in one place only: the later one shows [step+1]
    instead of [step] in this title.) *)
Definition redraw_in_loop (p : float) (f : frame) : M frame :=
  let f := set_Y (alpha f, beta f) f in
  emit cla ;;
  emit (set_xlim 0 1) ;;
  emit (set_ylim 0 12) ;;
  s <- read "step" (step f) ;;
  emit (set_title s (alpha f - 1) (beta f - 1)) ;;
  y <- read "Y" (Y f) ;;
  emit (plot_curve y) ;;
  emit (plot_line p) ;;
  emit display ;;
  emit clear_output ;;
  emit pause ;;
  ret f.

(** One iteration of [for step in range(n)]. *)
Definition iteration (p : float) (plot : bool) (i : Z) (f : frame) : M frame :=
  let f := set_step i f in
  f <- (if Bool.eqb plot true then redraw_in_loop p f else ret f) ;;
  x <- Bern p ;;
  let f := set_flip x f in
  let f := set_beta (beta f + (1 - x)) f in
  let f := set_alpha (alpha f + x) f in
  ret f.

(** The three estimates of the final [print], left to right:
    [(alpha-1)/(alpha+beta-2)], [alpha/(alpha+beta)] and
    [(alpha-1/3)/(alpha+beta-2/3)].  The first two are quotients of two
    integers, which Python rounds once.  The third goes through binary64 at
    each step ([1/3], [2/3], two subtractions, one division): the value kept
    here is the exact value of the formula, which the printed number only
    approximates, and no statement below is about the printed third
    estimate. *)
Definition print_estimates (f : frame) : M unit :=
  m <- truediv (inject_Z (alpha f - 1)) (inject_Z (alpha f + beta f - 2)) ;;
  e <- truediv (inject_Z (alpha f)) (inject_Z (alpha f + beta f)) ;;
  t <- truediv 1 3 ;;
  let num := (inject_Z (alpha f) - t)%Q in
  u <- truediv 2 3 ;;
  let den := (inject_Z (alpha f + beta f) - u)%Q in
  d <- truediv num den ;;
  emit (print m e d).

Definition learn_p (p : float) (n : Z) (plot : bool) : M (Z * Z) :=
  emit subplots ;;
  f <- for_each (range n) (iteration p plot) prior ;;
  emit cla ;;
  emit (set_xlim 0 1) ;;
  emit (set_ylim 0 12) ;;
  s <- read "step" (step f) ;;
  emit (set_title s (alpha f - 1) (beta f - 1)) ;;
  y <- read "Y" (Y f) ;;
  emit (plot_curve y) ;;
  emit (plot_line p) ;;
  emit display ;;
  print_estimates f ;;
  ret (alpha f, beta f).

(** ** Vocabulary of the statements *)

(** The posterior mean [alpha/(alpha+beta)]. *)
Definition mean_estimate (a b : Z) : Q := (inject_Z a / inject_Z (a + b))%Q.

(** [p] is a number of [[0,1]]. *)
Definition in_unit_interval (p : float) : Prop :=
  match p with
  | Finite q => (0 <= q /\ q <= 1)%Q
  | _ => False
  end.

(** Every draw of the generator lies in [[0,1)], as [rng.random()] promises. *)
Definition uniform_draws (w : world) : Prop :=
  forall i : nat, (0 <= draws w i /\ draws w i < 1)%Q.

(** [x] is strictly below [p], as a proposition. *)
Definition below (x : Q) (p : float) : Prop :=
  match p with
  | Finite q => (x < q)%Q
  | Inf negative => negative = false
  | NaN => False
  end.

(** The outcome of a flip that draws [x]. *)
Definition coin (p : float) (x : Q) : Z := if lt (Finite x) p then 1 else 0.

(** The frame that iteration [i] leaves when it starts from [f] and consumes
    the draw [x]. *)
Definition next (p : float) (plot : bool) (i : Z) (f : frame) (x : Q) : frame :=
  mkFrame (alpha f + coin p x)
          (beta f + (1 - coin p x))
          (Some i)
          (if plot then Some (alpha f, beta f) else Y f)
          (Some (coin p x)).

(** The draws consumed by [k] flips started in world [w]. *)
Definition observed (w : world) (k : nat) : list Q :=
  map (draws w) (seq (cursor w) k).

(** The number of draws strictly below [p], and the number of the others. *)
Definition heads (p : float) (xs : list Q) : Z :=
  Z.of_nat (length (filter (fun x => lt (Finite x) p) xs)).

Definition tails (p : float) (xs : list Q) : Z :=
  Z.of_nat (length (filter (fun x => negb (lt (Finite x) p)) xs)).

(** What a caller sees of a call: the value returned or the exception. *)
Definition result {A : Type} (o : outcome A) : A + exn :=
  match o with
  | Returns a _ => inl a
  | Raises e _ => inr e
  end.

(** The frame at the end of the [k]-th iteration of a call of [learn_p]
    started in world [w] (for a call that makes at least [k] iterations, see
    [loop_passes_through]). *)
Definition after_iterations (p : float) (plot : bool) (k : Z) (w : world)
  : outcome frame :=
  for_each (range k) (iteration p plot) prior (called subplots w).

(** A generator that produces the same number forever. *)
Definition constant_world (x : Q) : world := mkWorld (fun _ => x) 0 [].

(** ** The rest of the notebook *)

(** The notebook file [beta-bernoulli-update.ipynb] holds a second revision
    of [learn_p]: the same text, except that the title drawn inside the loop
    shows [step+1]. *)
Module Rev2.

Definition redraw_in_loop (p : float) (f : frame) : M frame :=
  let f := set_Y (alpha f, beta f) f in
  emit cla ;;
  emit (set_xlim 0 1) ;;
  emit (set_ylim 0 12) ;;
  s <- read "step" (step f) ;;
  emit (set_title (s + 1) (alpha f - 1) (beta f - 1)) ;;
  y <- read "Y" (Y f) ;;
  emit (plot_curve y) ;;
  emit (plot_line p) ;;
  emit display ;;
  emit clear_output ;;
  emit pause ;;
  ret f.

Definition iteration (p : float) (plot : bool) (i : Z) (f : frame) : M frame :=
  let f := set_step i f in
  f <- (if Bool.eqb plot true then redraw_in_loop p f else ret f) ;;
  x <- Bern p ;;
  let f := set_flip x f in
  let f := set_beta (beta f + (1 - x)) f in
  let f := set_alpha (alpha f + x) f in
  ret f.

Definition learn_p (p : float) (n : Z) (plot : bool) : M (Z * Z) :=
  emit subplots ;;
  f <- for_each (range n) (iteration p plot) prior ;;
  emit cla ;;
  emit (set_xlim 0 1) ;;
  emit (set_ylim 0 12) ;;
  s <- read "step" (step f) ;;
  emit (set_title s (alpha f - 1) (beta f - 1)) ;;
  y <- read "Y" (Y f) ;;
  emit (plot_curve y) ;;
  emit (plot_line p) ;;
  emit display ;;
  print_estimates f ;;
  ret (alpha f, beta f).

End Rev2.

(** [learn_p(p)]: the call that leaves [n=150] and [plot=True] to their
    defaults. *)
Definition learn_p_defaults (p : float) : M (Z * Z) := learn_p p 150 true.

(** The last cell of the notebook, [learn_p(0.2331)]; the literal denotes the
    binary64 number 8398312585120501 / 2^55. *)
Definition last_cell : M (Z * Z) :=
  learn_p_defaults (Finite (8398312585120501 # 36028797018963968)).

(** ** Vocabulary of the further properties *)

(** The world in which a call ended, by return or by exception. *)
Definition final_world {A : Type} (o : outcome A) : world :=
  match o with
  | Returns _ w => w
  | Raises _ w => w
  end.

(** The first printed estimate, and the exact value of the formula of the
    third. *)
Definition MAP_estimate (a b : Z) : Q :=
  (inject_Z (a - 1) / inject_Z (a + b - 2))%Q.

Definition median_estimate (a b : Z) : Q :=
  ((inject_Z a - 1 / 3) / (inject_Z (a + b) - 2 / 3))%Q.

(** The calls of one pass through the drawing block of the loop, latest
    first: [i] is the step, [a] and [b] the counters before the flip. *)
Definition redraw_calls (p : float) (i a b : Z) : list call :=
  [pause; clear_output; display; plot_line p; plot_curve (a, b);
   set_title i (a - 1) (b - 1); set_ylim 0 12; set_xlim 0 1; cla].

(** The calls of the iterations that start at step [i] with counters [a],
    [b] and consume the draws [xs], latest first. *)
Fixpoint loop_calls (p : float) (i a b : Z) (xs : list Q) : list call :=
  match xs with
  | [] => []
  | x :: xs' =>
      loop_calls p (i + 1) (a + coin p x) (b + (1 - coin p x)) xs'
        ++ redraw_calls p i a b
  end.

(** The calls after the loop of a call that returns [(a, b)], latest first:
    [s] is the value of [step] and [y] the value of [Y] left by the loop. *)
Definition closing_calls (p : float) (s a b : Z) (y : curve) : list call :=
  [print (MAP_estimate a b) (mean_estimate a b) (median_estimate a b);
   display; plot_line p; plot_curve y; set_title s (a - 1) (b - 1);
   set_ylim 0 12; set_xlim 0 1; cla].

(** The statements of [learn_p] that follow the loop, in either revision. *)
Definition closing (p : float) (f : frame) : M (Z * Z) :=
  emit cla ;;
  emit (set_xlim 0 1) ;;
  emit (set_ylim 0 12) ;;
  s <- read "step" (step f) ;;
  emit (set_title s (alpha f - 1) (beta f - 1)) ;;
  y <- read "Y" (Y f) ;;
  emit (plot_curve y) ;;
  emit (plot_line p) ;;
  emit display ;;
  print_estimates f ;;
  ret (alpha f, beta f).

Definition is_pause (c : call) : bool :=
  match c with pause => true | _ => false end.

Definition is_display (c : call) : bool :=
  match c with display => true | _ => false end.

Definition is_title (c : call) : bool :=
  match c with set_title _ _ _ => true | _ => false end.

(** How many calls of a kind a log holds. *)
Definition count (kind : call -> bool) (l : list call) : Z :=
  Z.of_nat (length (filter kind l)).

(** A title whose two counts add up to its step. *)
Definition title_counts_step (c : call) : Prop :=
  match c with
  | set_title s ones zeros => ones + zeros = s
  | _ => True
  end.

(** ** Comparison of floats *)

Lemma lt_below (x : Q) (p : float) : lt (Finite x) p = true <-> below x p.
Proof.
  destruct p as [q | [|] | ]; simpl.
  - rewrite (Qlt_alt x q). destruct (x ?= q)%Q; split; congruence.
  - split; discriminate.
  - split; reflexivity.
  - split; [discriminate | contradiction].
Qed.

Lemma coin_cases (p : float) (x : Q) :
  (coin p x = 1 /\ below x p) \/ (coin p x = 0 /\ ~ below x p).
Proof.
  unfold coin. destruct (lt (Finite x) p) eqn:E.
  - left. split; [reflexivity | now apply lt_below].
  - right. split; [reflexivity |].
    intro H. apply lt_below in H. congruence.
Qed.

Lemma coin_above (p : float) (x : Q) :
  le (Finite 1) p = true -> (x < 1)%Q -> coin p x = 1.
Proof.
  intros Hp Hx. unfold coin.
  destruct p as [q | [|] | ]; cbn [lt le negb] in *; try discriminate; try reflexivity.
  assert (Hq : (1 <= q)%Q).
  { apply (proj2 (Qle_alt 1 q)). destruct (1 ?= q)%Q; congruence. }
  assert (Hlt : (x < q)%Q) by (eapply Qlt_le_trans; eassumption).
  now rewrite (proj1 (Qlt_alt x q) Hlt).
Qed.

Lemma coin_under (p : float) (x : Q) :
  le p (Finite 0) = true -> (0 <= x)%Q -> coin p x = 0.
Proof.
  intros Hp Hx. unfold coin.
  destruct p as [q | [|] | ]; cbn [lt le negb] in *; try discriminate; try reflexivity.
  assert (Hq : (q <= 0)%Q).
  { apply (proj2 (Qle_alt q 0)). destruct (q ?= 0)%Q; congruence. }
  assert (Hle : (q <= x)%Q) by (eapply Qle_trans; eassumption).
  apply (proj1 (Qle_alt q x)) in Hle. rewrite <- (Qcompare_antisym x q) in Hle.
  destruct (x ?= q)%Q; cbn [CompOpp] in *; congruence.
Qed.

(** ** Ranges and loops *)

Lemma range_length (n : Z) : length (range n) = Z.to_nat n.
Proof. unfold range. now rewrite length_map, length_seq. Qed.

Lemma range_nonempty (n : Z) : 1 <= n -> range n <> [].
Proof.
  intros Hn E. apply (f_equal (@length Z)) in E.
  rewrite range_length in E. cbn [length] in E. lia.
Qed.

Lemma range_split (k n : Z) :
  0 <= k <= n -> range n = range k ++ skipn (Z.to_nat k) (range n).
Proof.
  intros Hk. unfold range.
  replace (Z.to_nat n) with (Z.to_nat k + (Z.to_nat n - Z.to_nat k))%nat at 1 by lia.
  rewrite seq_app, map_app. f_equal.
  rewrite skipn_map, skipn_seq. reflexivity.
Qed.

Lemma for_each_app {S : Type} (xs ys : list Z) (body : Z -> S -> M S) (s : S) (w : world) :
  for_each (xs ++ ys) body s w = bind (for_each xs body s) (for_each ys body) w.
Proof.
  revert s w. induction xs as [| x xs IH]; intros s w; simpl.
  - reflexivity.
  - unfold bind in *. destruct (body x s w) as [s' w' | e w'].
    + apply IH.
    + reflexivity.
Qed.

(** ** Counting the observed draws *)

Lemma heads_cons (p : float) (x : Q) (xs : list Q) :
  heads p (x :: xs) = coin p x + heads p xs.
Proof.
  unfold heads, coin. cbn [filter]. destruct (lt (Finite x) p); cbn [length]; lia.
Qed.

Lemma tails_cons (p : float) (x : Q) (xs : list Q) :
  tails p (x :: xs) = (1 - coin p x) + tails p xs.
Proof.
  unfold tails, coin. cbn [filter]. destruct (lt (Finite x) p); cbn [negb length]; lia.
Qed.

Lemma heads_tails (p : float) (xs : list Q) :
  heads p xs + tails p xs = Z.of_nat (length xs).
Proof.
  induction xs as [| x xs IH]; [reflexivity |].
  rewrite heads_cons, tails_cons. cbn [length]. lia.
Qed.

Lemma heads_nonneg (p : float) (xs : list Q) : 0 <= heads p xs.
Proof. unfold heads. lia. Qed.

Lemma tails_nonneg (p : float) (xs : list Q) : 0 <= tails p xs.
Proof. unfold tails. lia. Qed.

Lemma observed_length (w : world) (k : nat) : length (observed w k) = k.
Proof. unfold observed. now rewrite length_map, length_seq. Qed.

Lemma observed_succ (w w1 : world) (k : nat) :
  draws w1 = draws w -> cursor w1 = S (cursor w) ->
  observed w (S k) = draws w (cursor w) :: observed w1 k.
Proof. intros Hd Hc. unfold observed. rewrite Hd, Hc. reflexivity. Qed.

Lemma observed_in (w : world) (k : nat) (x : Q) :
  In x (observed w k) -> exists i, x = draws w i.
Proof.
  unfold observed. intros H. apply in_map_iff in H.
  destruct H as (i & <- & _). now exists i.
Qed.

(** ** The update loop *)

Section Loop.

Variable p : float.
Variable plot : bool.

(** One iteration never raises; it reads one draw and moves one counter. *)
Lemma iteration_returns (i : Z) (f : frame) (w : world) :
  exists w',
    iteration p plot i f w = Returns (next p plot i f (draws w (cursor w))) w'
    /\ draws w' = draws w /\ cursor w' = S (cursor w).
Proof.
  destruct plot; eexists; (split; [reflexivity | split; reflexivity]).
Qed.

(** The loop never raises; the counters grow by the flips it made, and the
    generator has moved by one draw per iteration. *)
Lemma loop_returns (xs : list Z) :
  forall (f : frame) (w : world),
  exists f' w',
    for_each xs (iteration p plot) f w = Returns f' w'
    /\ alpha f' = alpha f + heads p (observed w (length xs))
    /\ beta f' = beta f + tails p (observed w (length xs))
    /\ draws w' = draws w
    /\ cursor w' = (cursor w + length xs)%nat.
Proof.
  induction xs as [| x xs IH]; intros f w.
  - exists f, w. cbn. repeat split; lia.
  - destruct (iteration_returns x f w) as (w1 & E1 & Hd1 & Hc1).
    destruct (IH (next p plot x f (draws w (cursor w))) w1) as (f' & w' & E & Ha & Hb & Hd & Hc).
    exists f', w'. cbn [for_each]. unfold bind. rewrite E1.
    split; [exact E |].
    cbn [length]. rewrite (observed_succ w w1 _ Hd1 Hc1), heads_cons, tails_cons.
    cbn [next alpha beta] in Ha, Hb.
    repeat split; try congruence; lia.
Qed.

(** After at least one iteration [step] and [flip] are bound.  [Y] is bound
    only if the figure was redrawn, and then it is the curve of the counters
    as they were before the last flip. *)
Lemma loop_bindings (xs : list Z) :
  forall (f : frame) (w : world) (f' : frame) (w' : world),
  for_each xs (iteration p plot) f w = Returns f' w' ->
  xs <> [] ->
  step f' = Some (last xs 0)
  /\ Y f' = (if plot then Some (alpha f' - coin p (draws w (cursor w + length xs - 1)),
                                beta f' - (1 - coin p (draws w (cursor w + length xs - 1))))
             else Y f)
  /\ flip f' = Some (coin p (draws w (cursor w + length xs - 1))).
Proof.
  induction xs as [| x xs IH]; intros f w f' w' E Hne; [congruence |].
  destruct (iteration_returns x f w) as (w1 & E1 & Hd1 & Hc1).
  cbn [for_each] in E. unfold bind in E. rewrite E1 in E.
  destruct xs as [| x' xs].
  - change (for_each [] (iteration p plot) ?g w1) with (Returns g w1) in E.
    assert (Hf : f' = next p plot x f (draws w (cursor w))) by congruence.
    rewrite Hf. cbn [next alpha beta step Y flip length last].
    replace (cursor w + 1 - 1)%nat with (cursor w) by lia.
    split; [reflexivity | split; [| reflexivity]].
    destruct plot; [f_equal; f_equal; lia | reflexivity].
  - apply IH in E; [| discriminate].
    destruct E as (Hs & Hy & Hf). rewrite Hd1, Hc1 in *.
    replace (cursor w + length (x :: x' :: xs) - 1)%nat
      with (S (cursor w) + length (x' :: xs) - 1)%nat by (cbn [length]; lia).
    cbn [next Y] in Hy.
    repeat split; try assumption.
    destruct plot; assumption.
Qed.

(** A call of [n] iterations goes through the frame [after_iterations k]
    for every [k] up to [n]. *)
Lemma loop_passes_through (k n : Z) (w : world) :
  0 <= k <= n ->
  after_iterations p plot n w =
    match after_iterations p plot k w with
    | Returns fk wk =>
        for_each (skipn (Z.to_nat k) (range n)) (iteration p plot) fk wk
    | Raises e wk => Raises e wk
    end.
Proof.
  intros Hk. unfold after_iterations.
  rewrite (range_split k n Hk) at 1. apply for_each_app.
Qed.

Lemma after_iterations_returns (k : Z) (w : world) :
  exists fk wk,
    after_iterations p plot k w = Returns fk wk
    /\ alpha fk = 1 + heads p (observed w (Z.to_nat k))
    /\ beta fk = 1 + tails p (observed w (Z.to_nat k))
    /\ (1 <= k ->
        flip fk = Some (coin p (draws w (cursor w + Z.to_nat k - 1)))).
Proof.
  unfold after_iterations.
  destruct (loop_returns (range k) prior (called subplots w))
    as (f & w1 & E & Ha & Hb & _).
  exists f, w1. rewrite range_length in Ha, Hb.
  repeat split; try assumption.
  intros Hk.
  destruct (loop_bindings _ _ _ _ _ E (range_nonempty k Hk)) as (_ & _ & Hf).
  rewrite range_length in Hf. exact Hf.
Qed.

End Loop.

(** ** The estimates *)

Lemma inject_Z_nonzero (z : Z) : z <> 0 -> Qeq_bool (inject_Z z) 0 = false.
Proof.
  intros Hz. destruct (Qeq_bool (inject_Z z) 0) eqn:E; [| reflexivity].
  apply Qeq_bool_iff in E. unfold Qeq, inject_Z in E. simpl in E. lia.
Qed.

Lemma median_denominator_nonzero (z : Z) :
  Qeq_bool (inject_Z z - 2 / 3) 0 = false.
Proof.
  destruct (Qeq_bool (inject_Z z - 2 / 3) 0) eqn:E; [| reflexivity].
  apply Qeq_bool_iff in E. unfold Qeq, inject_Z in E. simpl in E. lia.
Qed.

Lemma print_estimates_returns (f : frame) (w : world) :
  alpha f + beta f - 2 <> 0 -> alpha f + beta f <> 0 ->
  exists m d,
    print_estimates f w =
      Returns tt (called (print m (mean_estimate (alpha f) (beta f)) d) w).
Proof.
  intros H2 H0. unfold print_estimates, truediv, bind.
  rewrite (inject_Z_nonzero _ H2), (inject_Z_nonzero _ H0).
  change (Qeq_bool 3 0) with false. cbv iota. unfold ret at 3 4.
  rewrite median_denominator_nonzero.
  eexists. eexists. reflexivity.
Qed.

(** At the prior [(1, 1)] the first estimate divides 0 by 0. *)
Lemma print_estimates_raises (f : frame) (w : world) :
  alpha f + beta f - 2 = 0 -> print_estimates f w = Raises ZeroDivisionError w.
Proof.
  intros H2. unfold print_estimates, truediv, bind. rewrite H2. reflexivity.
Qed.

Lemma mean_estimate_bounds (a b : Z) :
  1 <= a -> 1 <= b -> (0 < mean_estimate a b /\ mean_estimate a b < 1)%Q.
Proof.
  intros Ha Hb. unfold mean_estimate.
  assert (Hpos : (0 < inject_Z (a + b))%Q).
  { change 0%Q with (inject_Z 0). rewrite <- Zlt_Qlt. lia. }
  split.
  - apply Qlt_shift_div_l; [exact Hpos |].
    rewrite Qmult_0_l. change 0%Q with (inject_Z 0). rewrite <- Zlt_Qlt. lia.
  - apply Qlt_shift_div_r; [exact Hpos |].
    rewrite Qmult_1_l. rewrite <- Zlt_Qlt. lia.
Qed.

(** ** The three ways a call of [learn_p] ends *)

(** With no iteration, [step] is still unbound when the title is built. *)
Lemma learn_p_empty_range (p : float) (n : Z) (plot : bool) (w : world) :
  n <= 0 ->
  learn_p p n plot w =
    Raises (UnboundLocalError "step")
      (called (set_ylim 0 12) (called (set_xlim 0 1) (called cla (called subplots w)))).
Proof.
  intros Hn. unfold learn_p, range.
  replace (Z.to_nat n) with 0%nat by lia. reflexivity.
Qed.

(** Without plotting, [Y] is still unbound when the last curve is drawn. *)
Lemma learn_p_no_plot (p : float) (n : Z) (w : world) :
  1 <= n ->
  exists w', learn_p p n false w = Raises (UnboundLocalError "Y") w'.
Proof.
  intros Hn.
  destruct (loop_returns p false (range n) prior (called subplots w))
    as (f & w1 & E & _).
  destruct (loop_bindings p false _ _ _ _ _ E (range_nonempty n Hn)) as (Hs & Hy & _).
  unfold learn_p, bind, emit. rewrite E, Hs, Hy.
  eexists. reflexivity.
Qed.

(** With plotting and at least one iteration, the call returns. *)
Lemma learn_p_plot (p : float) (n : Z) (w : world) :
  1 <= n ->
  exists a b w',
    learn_p p n true w = Returns (a, b) w'
    /\ a = 1 + heads p (observed w (Z.to_nat n))
    /\ b = 1 + tails p (observed w (Z.to_nat n))
    /\ exists m d rest, log w' = print m (mean_estimate a b) d :: rest.
Proof.
  intros Hn.
  destruct (loop_returns p true (range n) prior (called subplots w))
    as (f & w1 & E & Ha & Hb & _).
  destruct (loop_bindings p true _ _ _ _ _ E (range_nonempty n Hn)) as (Hs & Hy & _).
  rewrite range_length in Ha, Hb.
  change (observed (called subplots w)) with (observed w) in Ha, Hb.
  cbn [alpha beta prior] in Ha, Hb.
  pose proof (heads_tails p (observed w (Z.to_nat n))) as Hsum.
  pose proof (heads_nonneg p (observed w (Z.to_nat n))) as Hh.
  pose proof (tails_nonneg p (observed w (Z.to_nat n))) as Ht.
  unfold observed in Hsum at 3. rewrite length_map, length_seq in Hsum.
  unfold learn_p, bind, emit. rewrite E, Hs, Hy. cbn [read ret].
  match goal with
  | |- context [print_estimates f ?v] =>
      destruct (print_estimates_returns f v) as (m & d & Ep); [lia | lia |];
      rewrite Ep
  end.
  exists (alpha f), (beta f). eexists.
  split; [reflexivity |].
  split; [exact Ha |]. split; [exact Hb |].
  exists m, d. eexists. reflexivity.
Qed.

(** Whenever [learn_p] returns, it plotted, made at least one iteration, and
    the counters are the prior plus the counts of the draws it observed. *)
Lemma learn_p_returned (p : float) (n : Z) (plot : bool) (w : world)
      (a b : Z) (w' : world) :
  learn_p p n plot w = Returns (a, b) w' ->
  1 <= n /\ plot = true
  /\ a = 1 + heads p (observed w (Z.to_nat n))
  /\ b = 1 + tails p (observed w (Z.to_nat n))
  /\ exists m d rest, log w' = print m (mean_estimate a b) d :: rest.
Proof.
  intros E.
  destruct (Z_le_gt_dec n 0) as [Hn | Hn].
  - rewrite (learn_p_empty_range p n plot w Hn) in E. discriminate.
  - assert (Hn1 : 1 <= n) by lia.
    destruct plot.
    + destruct (learn_p_plot p n w Hn1) as (a0 & b0 & w0 & E0 & Ha & Hb & Hlog).
      rewrite E0 in E. injection E as <- <- <-.
      repeat split; assumption.
    + destruct (learn_p_no_plot p n w Hn1) as (w0 & E0).
      rewrite E0 in E. discriminate.
Qed.

(** ** Degenerate coins and equal draws *)

Lemma heads_constant (p : float) (v : Z) (xs : list Q) :
  (forall x, In x xs -> coin p x = v) ->
  heads p xs = Z.of_nat (length xs) * v.
Proof.
  induction xs as [| x xs IH]; intros H; [reflexivity |].
  rewrite heads_cons, IH by (intros y Hy; apply H; now right).
  rewrite (H x) by now left.
  cbn [length]. lia.
Qed.

Lemma coin_Qeq (p : float) (x y : Q) : (x == y)%Q -> coin p x = coin p y.
Proof.
  intros H. unfold coin. destruct p as [q | [|] | ]; cbn [lt]; try reflexivity.
  now rewrite H.
Qed.

Lemma heads_Qeq (p : float) (xs ys : list Q) :
  Forall2 Qeq xs ys -> heads p xs = heads p ys /\ tails p xs = tails p ys.
Proof.
  induction 1 as [| x y xs ys Hxy _ [IHh IHt]]; [split; reflexivity |].
  rewrite !heads_cons, !tails_cons, IHh, IHt, (coin_Qeq p x y Hxy).
  split; reflexivity.
Qed.

(** A bias outside [[0,1]] is at most 0, at least 1, or not a number. *)
Lemma outside_unit_interval (p : float) :
  ~ in_unit_interval p ->
  le p (Finite 0) = true \/ le (Finite 1) p = true \/ p = NaN.
Proof.
  intros H. destruct p as [q | [|] | ]; cbn [le negb]; auto.
  destruct (Qlt_le_dec q 0) as [Hq | Hq].
  - left. apply Qlt_le_weak in Hq. apply (proj1 (Qle_alt q 0)) in Hq.
    destruct (q ?= 0)%Q; congruence.
  - destruct (Qlt_le_dec 1 q) as [Hq1 | Hq1].
    + right. left. apply Qlt_le_weak in Hq1. apply (proj1 (Qle_alt 1 q)) in Hq1.
      destruct (1 ?= q)%Q; congruence.
    + exfalso. apply H. split; assumption.
Qed.

(** ** The claims *)

(** C1 (the code departs from it): the plot flag is meant not to change the
    numbers returned.  On the draw 1/4 with [p = 1/2] and one iteration, the
    call with [plot = True] returns [(2, 1)], while the call with
    [plot = False] raises [UnboundLocalError] on [Y], which only the plotting
    branch of the loop assigns and the code after the loop reads. *)
Theorem learn_p_plot_flag_changes_outcome :
  result (learn_p (Finite (1 # 2)) 1 true (constant_world (1 # 4))) = inl (2, 1)
  /\ result (learn_p (Finite (1 # 2)) 1 false (constant_world (1 # 4)))
     = inr (UnboundLocalError "Y").
Proof. split; vm_compute; reflexivity. Qed.

(** C2 (the code departs from it): with [n = 0] the call is meant to return
    the prior [(1, 1)].  The loop body never runs, so [step] is unbound when
    the title after the loop is built: the call raises [UnboundLocalError],
    for every [p] and either value of [plot]. *)
Theorem learn_p_zero_flips_raises (p : float) (plot : bool) (w : world) :
  result (learn_p p 0 plot w) = inr (UnboundLocalError "step").
Proof.
  rewrite (learn_p_empty_range p 0 plot w) by lia. reflexivity.
Qed.

(** C3: for every [n >= 0], whenever [learn_p] returns [(alpha, beta)],
    [alpha + beta = n + 2]. *)
Theorem learn_p_counter_sum (p : float) (n : Z) (plot : bool) (w : world)
        (a b : Z) (w' : world) :
  0 <= n ->
  learn_p p n plot w = Returns (a, b) w' ->
  a + b = n + 2.
Proof.
  intros Hn E.
  destruct (learn_p_returned _ _ _ _ _ _ _ E) as (Hn1 & _ & Ha & Hb & _).
  pose proof (heads_tails p (observed w (Z.to_nat n))) as Hsum.
  rewrite observed_length in Hsum. lia.
Qed.

Lemma learn_p_counter_sum_witness :
  exists w',
    0 <= 3
    /\ learn_p (Finite (1 # 2)) 3 true (constant_world (3 # 4)) = Returns (1, 4) w'
    /\ 1 + 4 = 3 + 2.
Proof.
  assert (Hn : 0 <= 3) by lia.
  eassert (E : learn_p (Finite (1 # 2)) 3 true (constant_world (3 # 4))
               = Returns (1, 4) _) by (cbv; reflexivity).
  eexists. split; [exact Hn |]. split; [exact E |].
  exact (learn_p_counter_sum _ _ _ _ _ _ _ Hn E).
Defined.

(** C4: a flip consumes exactly one draw of the generator and is 1 exactly
    when that draw is strictly below [p], 0 otherwise. *)
Theorem Bern_compares_one_draw (p : float) (w : world) :
  exists x,
    Bern p w = Returns x (advanced w)
    /\ (x = 1 <-> below (draws w (cursor w)) p)
    /\ (x = 0 <-> ~ below (draws w (cursor w)) p).
Proof.
  exists (coin p (draws w (cursor w))).
  split; [reflexivity |].
  destruct (coin_cases p (draws w (cursor w))) as [[-> H] | [-> H]];
    intuition congruence.
Qed.

(** C5: for every [n >= 0], whenever [learn_p] returns [(alpha, beta)],
    [alpha >= 1] and [beta >= 1]; and at the end of every iteration [k] of
    the loop (a frame the call of [n] iterations goes through) the counters
    are at least 1 as well. *)
Theorem learn_p_counters_at_least_one (p : float) (n : Z) (plot : bool) (w : world) :
  0 <= n ->
  (forall a b w', learn_p p n plot w = Returns (a, b) w' -> 1 <= a /\ 1 <= b)
  /\ (forall k, 0 <= k <= n ->
      exists fk wk,
        after_iterations p plot k w = Returns fk wk
        /\ 1 <= alpha fk /\ 1 <= beta fk
        /\ after_iterations p plot n w =
             for_each (skipn (Z.to_nat k) (range n)) (iteration p plot) fk wk).
Proof.
  intros Hn. split.
  - intros a b w' E.
    destruct (learn_p_returned _ _ _ _ _ _ _ E) as (_ & _ & Ha & Hb & _).
    pose proof (heads_nonneg p (observed w (Z.to_nat n))).
    pose proof (tails_nonneg p (observed w (Z.to_nat n))). lia.
  - intros k Hk.
    destruct (after_iterations_returns p plot k w) as (fk & wk & E & Ha & Hb & _).
    exists fk, wk.
    pose proof (heads_nonneg p (observed w (Z.to_nat k))).
    pose proof (tails_nonneg p (observed w (Z.to_nat k))).
    repeat split; try lia; try assumption.
    rewrite (loop_passes_through p plot k n w Hk), E. reflexivity.
Qed.

Lemma learn_p_counters_at_least_one_witness :
  0 <= 2
  /\ exists w',
       learn_p (Finite (1 # 2)) 2 true (constant_world (1 # 4)) = Returns (3, 1) w'
       /\ 1 <= 3 /\ 1 <= 1.
Proof.
  assert (Hn : 0 <= 2) by lia.
  eassert (E : learn_p (Finite (1 # 2)) 2 true (constant_world (1 # 4))
               = Returns (3, 1) _) by (cbv; reflexivity).
  split; [exact Hn |]. eexists. split; [exact E |].
  exact (proj1 (learn_p_counters_at_least_one _ _ _ _ Hn) _ _ _ E).
Defined.

(** A coin that lands the same way on every draw of the generator. *)
Lemma learn_p_constant_coin (p : float) (n : Z) (w : world) (v : Z) :
  1 <= n ->
  (forall i, coin p (draws w i) = v) ->
  (forall k, 1 <= k <= n ->
     exists fk wk, after_iterations p true k w = Returns fk wk /\ flip fk = Some v)
  /\ exists w', learn_p p n true w = Returns (1 + n * v, 1 + n * (1 - v)) w'.
Proof.
  intros Hn Hv. split.
  - intros k Hk.
    destruct (after_iterations_returns p true k w) as (fk & wk & E & _ & _ & Hf).
    exists fk, wk. split; [exact E |]. rewrite Hf, Hv by lia. reflexivity.
  - destruct (learn_p_plot p n w Hn) as (a & b & w' & E & Ha & Hb & _).
    pose proof (heads_tails p (observed w (Z.to_nat n))) as Hsum.
    rewrite observed_length in Hsum.
    rewrite (heads_constant p v) in Ha, Hsum
      by (intros x Hx; apply observed_in in Hx; destruct Hx as (i & ->); apply Hv).
    rewrite observed_length in Ha, Hsum.
    exists w'. rewrite E. f_equal. f_equal; nia.
Qed.

(** C6 (the code departs from it): for [p] outside [[0,1]] and [n >= 1]
    the call is meant to complete, with every flip the same.  With
    [p = 1.5], [n = 4] and the draws 1/2, every flip is 1 at the end of each
    iteration, with or without plotting, and the call with [plot = True]
    returns [(5, 1)]; but the call with [plot = False] raises
    [UnboundLocalError] on [Y] after the loop and returns no state.  This is
    the defect of C1. *)
Theorem learn_p_bias_outside_unit_without_plot :
  result (learn_p (Finite (3 # 2)) 4 false (constant_world (1 # 2)))
  = inr (UnboundLocalError "Y")
  /\ result (learn_p (Finite (3 # 2)) 4 true (constant_world (1 # 2)))
     = inl (5, 1)
  /\ map (fun k => match after_iterations (Finite (3 # 2)) false k
                                          (constant_world (1 # 2)) with
                   | Returns f _ => flip f
                   | Raises _ _ => None
                   end) [1; 2; 3; 4]
     = [Some 1; Some 1; Some 1; Some 1].
Proof. repeat split; vm_compute; reflexivity. Qed.

(** X17: for every float [p] outside [[0,1]] (infinities and NaN included)
    and every [n >= 1], on draws of [[0,1)], the call with [plot = True]
    returns; every flip of the run has the same value [v], which is 0 when
    [p <= 0] and 1 when [p >= 1], and the final state is
    [(1 + n*v, 1 + n*(1-v))]. *)
Theorem learn_p_bias_outside_unit (p : float) (n : Z) (w : world) :
  ~ in_unit_interval p ->
  1 <= n ->
  uniform_draws w ->
  exists v w',
    (v = 0 \/ v = 1)
    /\ (le p (Finite 0) = true -> v = 0)
    /\ (le (Finite 1) p = true -> v = 1)
    /\ (forall k, 1 <= k <= n ->
          exists fk wk,
            after_iterations p true k w = Returns fk wk /\ flip fk = Some v)
    /\ learn_p p n true w = Returns (1 + n * v, 1 + n * (1 - v)) w'.
Proof.
  intros Hp Hn Hu.
  assert (Hcoin : exists v, (v = 0 \/ v = 1)
                            /\ (le p (Finite 0) = true -> v = 0)
                            /\ (le (Finite 1) p = true -> v = 1)
                            /\ forall i, coin p (draws w i) = v).
  { destruct (outside_unit_interval p Hp) as [H0 | [H1 | ->]].
    - exists 0. repeat split; auto.
      + intros H1. destruct (Hu 0%nat) as [Hlo Hhi].
        rewrite <- (coin_under p _ H0 Hlo). now apply coin_above.
      + intros i. apply coin_under; [exact H0 | apply Hu].
    - exists 1. repeat split; auto.
      + intros H0. destruct (Hu 0%nat) as [Hlo Hhi].
        rewrite <- (coin_above p _ H1 Hhi). now apply coin_under.
      + intros i. apply coin_above; [exact H1 | apply Hu].
    - exists 0. repeat split; auto; discriminate. }
  destruct Hcoin as (v & Hv & H0 & H1 & Hall).
  destruct (learn_p_constant_coin p n w v Hn Hall) as (Hflips & w' & E).
  exists v, w'. repeat split; assumption.
Qed.

Lemma learn_p_bias_outside_unit_witness :
  ~ in_unit_interval (Finite (3 # 2))
  /\ 1 <= 4
  /\ uniform_draws (constant_world (1 # 2))
  /\ exists w', learn_p (Finite (3 # 2)) 4 true (constant_world (1 # 2))
                = Returns (5, 1) w'.
Proof.
  assert (Hp : ~ in_unit_interval (Finite (3 # 2))).
  { intros [_ H]. apply H. reflexivity. }
  assert (Hu : uniform_draws (constant_world (1 # 2))).
  { intros i. split; [discriminate | reflexivity]. }
  split; [exact Hp |]. split; [lia |]. split; [exact Hu |].
  destruct (learn_p_bias_outside_unit (Finite (3 # 2)) 4 (constant_world (1 # 2)))
    as (v & w' & _ & _ & Hv & _ & E); [exact Hp | lia | exact Hu |].
  exists w'. rewrite E, (Hv eq_refl). reflexivity.
Defined.

(** C7: with [p = 1.0] and [n = 10], on draws of [[0,1)], the flip is 1 at
    the end of each of the 10 iterations and the call returns [(11, 1)]. *)
Theorem learn_p_certain_heads (w : world) :
  uniform_draws w ->
  (forall k, 1 <= k <= 10 ->
     exists fk wk,
       after_iterations (Finite 1) true k w = Returns fk wk /\ flip fk = Some 1)
  /\ exists w', learn_p (Finite 1) 10 true w = Returns (11, 1) w'.
Proof.
  intros Hu.
  apply (learn_p_constant_coin (Finite 1) 10 w 1); [lia |].
  intros i. apply coin_above; [reflexivity | apply Hu].
Qed.

Lemma learn_p_certain_heads_witness :
  uniform_draws (constant_world (7 # 10))
  /\ exists w', learn_p (Finite 1) 10 true (constant_world (7 # 10))
                = Returns (11, 1) w'.
Proof.
  assert (Hu : uniform_draws (constant_world (7 # 10))).
  { intros i. split; [discriminate | reflexivity]. }
  split; [exact Hu |].
  exact (proj2 (learn_p_certain_heads (constant_world (7 # 10)) Hu)).
Defined.

(** C8: two runs with the same [p], [n] and [plot] that observe the same
    draws end the same way: the same [(alpha, beta)] when they return (and
    the same exception when they raise), whatever else differs between the
    two worlds. *)
Theorem learn_p_deterministic (p : float) (n : Z) (plot : bool) (w1 w2 : world) :
  Forall2 Qeq (observed w1 (Z.to_nat n)) (observed w2 (Z.to_nat n)) ->
  result (learn_p p n plot w1) = result (learn_p p n plot w2).
Proof.
  intros Hobs.
  destruct (Z_le_gt_dec n 0) as [Hn | Hn].
  - now rewrite !learn_p_empty_range by exact Hn.
  - assert (Hn1 : 1 <= n) by lia.
    destruct plot.
    + destruct (learn_p_plot p n w1 Hn1) as (a1 & b1 & v1 & E1 & Ha1 & Hb1 & _).
      destruct (learn_p_plot p n w2 Hn1) as (a2 & b2 & v2 & E2 & Ha2 & Hb2 & _).
      destruct (heads_Qeq p _ _ Hobs) as [Hh Ht].
      rewrite E1, E2. cbn [result]. congruence.
    + destruct (learn_p_no_plot p n w1 Hn1) as (v1 & E1).
      destruct (learn_p_no_plot p n w2 Hn1) as (v2 & E2).
      now rewrite E1, E2.
Qed.

Lemma learn_p_deterministic_witness :
  Forall2 Qeq
    (observed (constant_world (1 # 4)) (Z.to_nat 3))
    (observed (mkWorld (fun i => if (i <? 8)%nat then 2 # 8 else 9 # 10) 5 [pause])
              (Z.to_nat 3))
  /\ result (learn_p (Finite (1 # 2)) 3 true (constant_world (1 # 4))) = inl (4, 1)
  /\ result (learn_p (Finite (1 # 2)) 3 true
               (mkWorld (fun i => if (i <? 8)%nat then 2 # 8 else 9 # 10) 5 [pause]))
     = inl (4, 1).
Proof.
  assert (H : Forall2 Qeq
    (observed (constant_world (1 # 4)) (Z.to_nat 3))
    (observed (mkWorld (fun i => if (i <? 8)%nat then 2 # 8 else 9 # 10) 5 [pause])
              (Z.to_nat 3))).
  { repeat constructor. }
  split; [exact H |].
  rewrite <- (learn_p_deterministic (Finite (1 # 2)) 3 true _ _ H).
  split; vm_compute; reflexivity.
Defined.

(** C9: whenever [learn_p] returns, the counters are integers: [alpha] is 1
    plus the number of observed draws strictly below [p], [beta] is 1 plus
    the number of the other observed draws, the observed draws being the
    [n] draws that follow the generator's position at the call. *)
Theorem learn_p_counts_draws (p : float) (n : Z) (plot : bool) (w : world)
        (a b : Z) (w' : world) :
  learn_p p n plot w = Returns (a, b) w' ->
  a = 1 + Z.of_nat (length (filter (fun x => lt (Finite x) p)
                                   (observed w (Z.to_nat n))))
  /\ b = 1 + Z.of_nat (length (filter (fun x => negb (lt (Finite x) p))
                                      (observed w (Z.to_nat n))))
  /\ Z.of_nat (length (observed w (Z.to_nat n))) = n.
Proof.
  intros E.
  destruct (learn_p_returned _ _ _ _ _ _ _ E) as (Hn & _ & Ha & Hb & _).
  split; [exact Ha |]. split; [exact Hb |].
  rewrite observed_length. lia.
Qed.

Lemma learn_p_counts_draws_witness :
  exists w',
    learn_p (Finite (1 # 2)) 4 true
            (mkWorld (fun i => if Nat.even i then 1 # 5 else 4 # 5) 0 [])
      = Returns (3, 3) w'
    /\ 3 = 1 + Z.of_nat (length (filter (fun x => lt (Finite x) (Finite (1 # 2)))
               (observed (mkWorld (fun i => if Nat.even i then 1 # 5 else 4 # 5) 0 [])
                         (Z.to_nat 4)))).
Proof.
  eassert (E : learn_p (Finite (1 # 2)) 4 true
                       (mkWorld (fun i => if Nat.even i then 1 # 5 else 4 # 5) 0 [])
               = Returns (3, 3) _) by (cbv; reflexivity).
  eexists. split; [exact E |].
  exact (proj1 (learn_p_counts_draws _ _ _ _ _ _ _ E)).
Defined.

(** C10: whenever [learn_p] returns [(alpha, beta)], the mean estimate
    [alpha/(alpha+beta)] that the final [print] shows is strictly between 0
    and 1, also when all the flips were equal. *)
Theorem learn_p_mean_strictly_inside (p : float) (n : Z) (plot : bool) (w : world)
        (a b : Z) (w' : world) :
  learn_p p n plot w = Returns (a, b) w' ->
  (exists m d rest, log w' = print m (mean_estimate a b) d :: rest)
  /\ (0 < mean_estimate a b)%Q
  /\ (mean_estimate a b < 1)%Q.
Proof.
  intros E.
  destruct (learn_p_returned _ _ _ _ _ _ _ E) as (_ & _ & Ha & Hb & Hlog).
  split; [exact Hlog |].
  apply mean_estimate_bounds.
  - pose proof (heads_nonneg p (observed w (Z.to_nat n))). lia.
  - pose proof (tails_nonneg p (observed w (Z.to_nat n))). lia.
Qed.

Lemma learn_p_mean_strictly_inside_witness :
  exists w',
    learn_p (Finite 1) 5 true (constant_world (1 # 3)) = Returns (6, 1) w'
    /\ (0 < mean_estimate 6 1)%Q
    /\ (mean_estimate 6 1 < 1)%Q.
Proof.
  eassert (E : learn_p (Finite 1) 5 true (constant_world (1 # 3))
               = Returns (6, 1) _) by (cbv; reflexivity).
  eexists. split; [exact E |].
  exact (proj2 (learn_p_mean_strictly_inside _ _ _ _ _ _ _ E)).
Defined.

(** ** The worlds a call leaves behind *)

Lemma range_last (n : Z) : 1 <= n -> last (range n) 0 = n - 1.
Proof.
  intros Hn. unfold range.
  replace (Z.to_nat n) with (Z.to_nat (n - 1) + 1)%nat by lia.
  rewrite seq_app, map_app. cbn [seq map]. rewrite last_last. lia.
Qed.

Lemma world_eta (w : world) : mkWorld (draws w) (cursor w) (log w) = w.
Proof. now destruct w. Qed.

(** One iteration, with the world it leaves. *)
Lemma iteration_world (p : float) (plot : bool) (i : Z) (f : frame) (w : world) :
  iteration p plot i f w =
    Returns (next p plot i f (draws w (cursor w)))
      (mkWorld (draws w) (S (cursor w))
         ((if plot then redraw_calls p i (alpha f) (beta f) else []) ++ log w)).
Proof. destruct plot; reflexivity. Qed.

(** The world after [k] iterations that start at step [s]. *)
Lemma loop_world (p : float) (plot : bool) (k : nat) :
  forall (s : nat) (f : frame) (w : world) (f' : frame) (w' : world),
  for_each (map Z.of_nat (seq s k)) (iteration p plot) f w = Returns f' w' ->
  w' = mkWorld (draws w) (cursor w + k)
         ((if plot
           then loop_calls p (Z.of_nat s) (alpha f) (beta f) (observed w k)
           else []) ++ log w).
Proof.
  induction k as [| k IH]; intros s f w f' w' E.
  - cbn [seq map for_each ret] in E. injection E as _ <-.
    rewrite Nat.add_0_r. destruct plot; cbn [observed seq map loop_calls app];
      symmetry; apply world_eta.
  - cbn [seq map for_each] in E. unfold bind in E.
    rewrite iteration_world in E. apply IH in E. rewrite E.
    cbn [draws cursor log next alpha beta].
    rewrite (observed_succ w (mkWorld (draws w) (S (cursor w))
                                (((if plot
                                   then redraw_calls p (Z.of_nat s) (alpha f) (beta f)
                                   else []) ++ log w)))) by reflexivity.
    f_equal; [lia |].
    destruct plot; [| reflexivity].
    cbn [loop_calls]. rewrite <- app_assoc.
    replace (Z.of_nat (S s)) with (Z.of_nat s + 1) by lia. reflexivity.
Qed.

Lemma print_estimates_exact (f : frame) (w : world) :
  alpha f + beta f - 2 <> 0 -> alpha f + beta f <> 0 ->
  print_estimates f w =
    Returns tt (called (print (MAP_estimate (alpha f) (beta f))
                              (mean_estimate (alpha f) (beta f))
                              (median_estimate (alpha f) (beta f))) w).
Proof.
  intros H2 H0. unfold print_estimates, truediv, bind.
  rewrite (inject_Z_nonzero _ H2), (inject_Z_nonzero _ H0).
  change (Qeq_bool 3 0) with false. cbv iota. unfold ret at 3 4.
  rewrite median_denominator_nonzero. reflexivity.
Qed.

(** The call that returns, with the world it leaves: [c] is the last flip. *)
Lemma learn_p_plot_world (p : float) (n : Z) (w : world) :
  1 <= n ->
  exists a b,
    a = 1 + heads p (observed w (Z.to_nat n))
    /\ b = 1 + tails p (observed w (Z.to_nat n))
    /\ learn_p p n true w =
         Returns (a, b)
           (mkWorld (draws w) (cursor w + Z.to_nat n)
              (closing_calls p (n - 1) a b
                 (a - coin p (draws w (cursor w + Z.to_nat n - 1)),
                  b - (1 - coin p (draws w (cursor w + Z.to_nat n - 1))))
               ++ loop_calls p 0 1 1 (observed w (Z.to_nat n))
               ++ subplots :: log w)).
Proof.
  intros Hn.
  destruct (loop_returns p true (range n) prior (called subplots w))
    as (f & w1 & E & Ha & Hb & _).
  destruct (loop_bindings p true _ _ _ _ _ E (range_nonempty n Hn)) as (Hs & Hy & _).
  pose proof (loop_world p true _ _ _ _ _ _ E) as Hw.
  rewrite range_length in Ha, Hb, Hy.
  rewrite range_last in Hs by exact Hn.
  change (observed (called subplots w)) with (observed w) in Ha, Hb, Hw.
  cbn [alpha beta prior draws cursor log called] in Ha, Hb, Hy, Hw.
  pose proof (heads_tails p (observed w (Z.to_nat n))) as Hsum.
  pose proof (heads_nonneg p (observed w (Z.to_nat n))) as Hh.
  pose proof (tails_nonneg p (observed w (Z.to_nat n))) as Ht.
  rewrite observed_length in Hsum.
  exists (alpha f), (beta f).
  split; [exact Ha |]. split; [exact Hb |].
  unfold learn_p, bind, emit. rewrite E, Hs, Hy. cbn [read ret].
  rewrite print_estimates_exact by lia.
  rewrite Hw. reflexivity.
Qed.

(** The call that does not plot, with the world in which it raises. *)
Lemma learn_p_no_plot_world (p : float) (n : Z) (w : world) :
  1 <= n ->
  learn_p p n false w =
    Raises (UnboundLocalError "Y")
      (mkWorld (draws w) (cursor w + Z.to_nat n)
         (set_title (n - 1)
                    (heads p (observed w (Z.to_nat n)))
                    (tails p (observed w (Z.to_nat n)))
          :: set_ylim 0 12 :: set_xlim 0 1 :: cla :: subplots :: log w)).
Proof.
  intros Hn.
  destruct (loop_returns p false (range n) prior (called subplots w))
    as (f & w1 & E & Ha & Hb & _).
  destruct (loop_bindings p false _ _ _ _ _ E (range_nonempty n Hn)) as (Hs & Hy & _).
  pose proof (loop_world p false _ _ _ _ _ _ E) as Hw.
  rewrite range_length in Ha, Hb.
  rewrite range_last in Hs by exact Hn.
  change (observed (called subplots w)) with (observed w) in Ha, Hb.
  cbn [alpha beta prior draws cursor log called app] in Ha, Hb, Hw.
  unfold learn_p, bind, emit. rewrite E, Hs, Hy. cbn [read ret raise prior Y].
  rewrite Hw. unfold called. cbn [draws cursor log].
  replace (alpha f - 1) with (heads p (observed w (Z.to_nat n))) by lia.
  replace (beta f - 1) with (tails p (observed w (Z.to_nat n))) by lia.
  reflexivity.
Qed.

Lemma count_app (kind : call -> bool) (l1 l2 : list call) :
  count kind (l1 ++ l2) = count kind l1 + count kind l2.
Proof. unfold count. rewrite filter_app, length_app. lia. Qed.

Lemma count_loop_calls (kind : call -> bool) (p : float) (c : Z) :
  (forall i a b, count kind (redraw_calls p i a b) = c) ->
  forall xs i a b, count kind (loop_calls p i a b xs) = Z.of_nat (length xs) * c.
Proof.
  intros Hc. induction xs as [| x xs IH]; intros i a b.
  - reflexivity.
  - cbn [loop_calls length]. rewrite count_app, IH, Hc. lia.
Qed.

Lemma loop_titles (p : float) (xs : list Q) :
  forall i a b, (a - 1) + (b - 1) = i ->
  Forall title_counts_step (loop_calls p i a b xs).
Proof.
  induction xs as [| x xs IH]; intros i a b Hi; cbn [loop_calls].
  - constructor.
  - apply Forall_app. split.
    + apply IH. lia.
    + unfold redraw_calls. repeat constructor. exact Hi.
Qed.

(** The world of a call that returned. *)
Lemma learn_p_returned_world (p : float) (n : Z) (plot : bool) (w : world)
      (a b : Z) (w' : world) :
  learn_p p n plot w = Returns (a, b) w' ->
  1 <= n
  /\ a = 1 + heads p (observed w (Z.to_nat n))
  /\ b = 1 + tails p (observed w (Z.to_nat n))
  /\ w' = mkWorld (draws w) (cursor w + Z.to_nat n)
            (closing_calls p (n - 1) a b
               (a - coin p (draws w (cursor w + Z.to_nat n - 1)),
                b - (1 - coin p (draws w (cursor w + Z.to_nat n - 1))))
             ++ loop_calls p 0 1 1 (observed w (Z.to_nat n))
             ++ subplots :: log w).
Proof.
  intros E.
  destruct (learn_p_returned _ _ _ _ _ _ _ E) as (Hn & -> & _).
  destruct (learn_p_plot_world p n w Hn) as (a0 & b0 & Ha & Hb & E0).
  rewrite E0 in E. injection E as <- <- <-.
  repeat split; assumption.
Qed.

(** ** Further properties of [learn_p] *)

(** X1: a call of [learn_p] returns exactly when it plots and makes at
    least one iteration. *)
Theorem learn_p_returns_iff (p : float) (n : Z) (plot : bool) (w : world) :
  (exists ab, result (learn_p p n plot w) = inl ab) <-> (1 <= n /\ plot = true).
Proof.
  split.
  - intros [ab H].
    destruct (learn_p p n plot w) as [[a b] w' | e w'] eqn:E; [| discriminate].
    destruct (learn_p_returned _ _ _ _ _ _ _ E) as (Hn & Hp & _). now split.
  - intros [Hn ->].
    destruct (learn_p_plot p n w Hn) as (a & b & w' & E & _).
    exists (a, b). now rewrite E.
Qed.

(** X2: no call of [learn_p] raises [ZeroDivisionError], although the
    estimates of the prior frame do divide by zero: the calls that would
    reach them with the prior raise earlier. *)
Theorem learn_p_never_divides_by_zero (p : float) (n : Z) (plot : bool) (w : world) :
  result (learn_p p n plot w) <> inr ZeroDivisionError
  /\ result (print_estimates prior w) = inr ZeroDivisionError.
Proof.
  split; [| reflexivity].
  destruct (Z_le_gt_dec n 0) as [Hn | Hn].
  - rewrite (learn_p_empty_range p n plot w Hn). discriminate.
  - assert (Hn1 : 1 <= n) by lia. destruct plot.
    + destruct (learn_p_plot p n w Hn1) as (a & b & w' & E & _).
      rewrite E. discriminate.
    + rewrite (learn_p_no_plot_world p n w Hn1). discriminate.
Qed.

(** X3: with [n <= 0] (negative included) the call raises
    [UnboundLocalError] on [step] without consuming a draw, after it has
    created the figure and reset the axes. *)
Theorem learn_p_nonpositive_n (p : float) (n : Z) (plot : bool) (w : world) :
  n <= 0 ->
  result (learn_p p n plot w) = inr (UnboundLocalError "step")
  /\ cursor (final_world (learn_p p n plot w)) = cursor w
  /\ log (final_world (learn_p p n plot w))
     = [set_ylim 0 12; set_xlim 0 1; cla; subplots] ++ log w.
Proof.
  intros Hn. rewrite (learn_p_empty_range p n plot w Hn).
  repeat split.
Qed.

Lemma learn_p_nonpositive_n_witness :
  -3 <= 0
  /\ result (learn_p (Finite (1 # 2)) (-3) false (constant_world (1 # 4)))
     = inr (UnboundLocalError "step").
Proof.
  assert (Hn : -3 <= 0) by lia.
  split; [exact Hn |].
  exact (proj1 (learn_p_nonpositive_n (Finite (1 # 2)) (-3) false
                  (constant_world (1 # 4)) Hn)).
Defined.

(** X4: however it ends, a call of [learn_p] consumes exactly
    [max n 0] draws of the generator and leaves the later draws as they
    were. *)
Theorem learn_p_consumes_n_draws (p : float) (n : Z) (plot : bool) (w : world) :
  cursor (final_world (learn_p p n plot w)) = (cursor w + Z.to_nat n)%nat
  /\ draws (final_world (learn_p p n plot w)) = draws w.
Proof.
  destruct (Z_le_gt_dec n 0) as [Hn | Hn].
  - rewrite (learn_p_empty_range p n plot w Hn). cbn.
    split; [lia | reflexivity].
  - assert (Hn1 : 1 <= n) by lia. destruct plot.
    + destruct (learn_p_plot_world p n w Hn1) as (a & b & _ & _ & E).
      rewrite E. split; reflexivity.
    + rewrite (learn_p_no_plot_world p n w Hn1). split; reflexivity.
Qed.

(** X5: the plot flag changes no counter.  At the end of iteration [k] the
    plotting and the non-plotting loop agree on [alpha], [beta], [step] and
    [flip] and have consumed the same draws; the non-plotting loop has made
    no call and has left [Y] unbound. *)
Theorem plot_flag_keeps_counters (p : float) (k : Z) (w : world) :
  exists f1 w1 f2 w2,
    after_iterations p true k w = Returns f1 w1
    /\ after_iterations p false k w = Returns f2 w2
    /\ alpha f1 = alpha f2 /\ beta f1 = beta f2
    /\ step f1 = step f2 /\ flip f1 = flip f2
    /\ cursor w1 = cursor w2 /\ draws w1 = draws w2
    /\ Y f2 = None /\ log w2 = subplots :: log w.
Proof.
  unfold after_iterations.
  destruct (loop_returns p true (range k) prior (called subplots w))
    as (f1 & w1 & E1 & Ha1 & Hb1 & Hd1 & Hc1).
  destruct (loop_returns p false (range k) prior (called subplots w))
    as (f2 & w2 & E2 & Ha2 & Hb2 & Hd2 & Hc2).
  pose proof (loop_world p false _ _ _ _ _ _ E2) as Hw2.
  exists f1, w1, f2, w2.
  split; [exact E1 |]. split; [exact E2 |].
  split; [congruence |]. split; [congruence |].
  assert (Hfr : step f1 = step f2 /\ flip f1 = flip f2 /\ Y f2 = None).
  { destruct (Z_le_gt_dec k 0) as [Hk | Hk].
    - unfold range in E1, E2.
      replace (Z.to_nat k) with 0%nat in E1, E2 by lia.
      cbn [seq map for_each ret] in E1, E2.
      injection E1 as <- _. injection E2 as <- _. repeat split.
    - assert (Hne : range k <> []) by (apply range_nonempty; lia).
      destruct (loop_bindings p true _ _ _ _ _ E1 Hne) as (Hs1 & _ & Hf1).
      destruct (loop_bindings p false _ _ _ _ _ E2 Hne) as (Hs2 & Hy2 & Hf2).
      split; [congruence |]. split; [congruence | exact Hy2]. }
  destruct Hfr as (Hs & Hf & Hy).
  split; [exact Hs |]. split; [exact Hf |].
  split; [congruence |]. split; [congruence |].
  split; [exact Hy |].
  rewrite Hw2. reflexivity.
Qed.

(** X6: with [plot=False] and [n >= 1] the exception on [Y] comes after all
    the flips.  Nothing was drawn inside the loop, and the last call made,
    the title set just before the failing read, carries the step [n-1] and
    the two counts of the [n] observed draws. *)
Theorem learn_p_without_plot_fails_late (p : float) (n : Z) (w : world) :
  1 <= n ->
  result (learn_p p n false w) = inr (UnboundLocalError "Y")
  /\ log (final_world (learn_p p n false w))
     = set_title (n - 1)
                 (heads p (observed w (Z.to_nat n)))
                 (tails p (observed w (Z.to_nat n)))
       :: set_ylim 0 12 :: set_xlim 0 1 :: cla :: subplots :: log w.
Proof.
  intros Hn. rewrite (learn_p_no_plot_world p n w Hn). split; reflexivity.
Qed.

Lemma learn_p_without_plot_fails_late_witness :
  1 <= 3
  /\ log (final_world (learn_p (Finite (1 # 2)) 3 false
                         (mkWorld (fun i => if Nat.even i then 1 # 5 else 4 # 5) 0 [])))
     = [set_title 2 2 1; set_ylim 0 12; set_xlim 0 1; cla; subplots].
Proof.
  assert (Hn : 1 <= 3) by lia.
  split; [exact Hn |].
  rewrite (proj2 (learn_p_without_plot_fails_late (Finite (1 # 2)) 3
                    (mkWorld (fun i => if Nat.even i then 1 # 5 else 4 # 5) 0 []) Hn)).
  vm_compute. reflexivity.
Defined.

(** X7: the figure a returning call leaves is one flip behind the pair it
    returns.  The curve drawn after the loop is the one computed before the
    last flip: its parameters are [(alpha-1, beta)] or [(alpha, beta-1)],
    never the returned [(alpha, beta)]. *)
Theorem learn_p_last_curve_is_one_flip_behind
        (p : float) (n : Z) (plot : bool) (w : world) (a b : Z) (w' : world) :
  learn_p p n plot w = Returns (a, b) w' ->
  exists y rest,
    log w' = closing_calls p (n - 1) a b y ++ rest
    /\ (y = (a - 1, b) \/ y = (a, b - 1))
    /\ y <> (a, b)
    /\ fst y + snd y = n + 1.
Proof.
  intros E.
  destruct (learn_p_returned_world _ _ _ _ _ _ _ E) as (Hn & Ha & Hb & ->).
  pose proof (heads_tails p (observed w (Z.to_nat n))) as Hsum.
  rewrite observed_length in Hsum.
  eexists. eexists. split; [reflexivity |].
  destruct (coin_cases p (draws w (cursor w + Z.to_nat n - 1))) as [[-> _] | [-> _]].
  - split; [left; f_equal; lia |].
    split; [intros H; injection H; lia | cbn [fst snd]; lia].
  - split; [right; f_equal; lia |].
    split; [intros H; injection H; lia | cbn [fst snd]; lia].
Qed.

Lemma learn_p_last_curve_is_one_flip_behind_witness :
  exists w',
    learn_p (Finite (1 # 2)) 2 true (constant_world (1 # 4)) = Returns (3, 1) w'
    /\ exists y rest,
         log w' = closing_calls (Finite (1 # 2)) (2 - 1) 3 1 y ++ rest
         /\ (y = (3 - 1, 1) \/ y = (3, 1 - 1))
         /\ y <> (3, 1)
         /\ fst y + snd y = 2 + 1.
Proof.
  eassert (E : learn_p (Finite (1 # 2)) 2 true (constant_world (1 # 4))
               = Returns (3, 1) _) by (cbv; reflexivity).
  eexists. split; [exact E |].
  exact (learn_p_last_curve_is_one_flip_behind _ _ _ _ _ _ _ E).
Defined.

(** X8: a returning call pauses once per iteration and shows the figure
    once per iteration and once more after the loop; it sets [n + 1]
    titles. *)
Theorem learn_p_display_counts
        (p : float) (n : Z) (plot : bool) (w : world) (a b : Z) (w' : world) :
  learn_p p n plot w = Returns (a, b) w' ->
  count is_pause (log w') = count is_pause (log w) + n
  /\ count is_display (log w') = count is_display (log w) + n + 1
  /\ count is_title (log w') = count is_title (log w) + n + 1.
Proof.
  intros E.
  destruct (learn_p_returned_world _ _ _ _ _ _ _ E) as (Hn & _ & _ & ->).
  cbn [log]. rewrite !count_app.
  rewrite (count_loop_calls is_pause p 1), (count_loop_calls is_display p 1),
    (count_loop_calls is_title p 1) by reflexivity.
  rewrite observed_length.
  change (count is_pause (subplots :: log w)) with (count is_pause (log w)).
  change (count is_display (subplots :: log w)) with (count is_display (log w)).
  change (count is_title (subplots :: log w)) with (count is_title (log w)).
  change (count is_pause (closing_calls ?q ?s ?x ?y ?z)) with 0.
  change (count is_display (closing_calls ?q ?s ?x ?y ?z)) with 1.
  change (count is_title (closing_calls ?q ?s ?x ?y ?z)) with 1.
  lia.
Qed.

Lemma learn_p_display_counts_witness :
  exists w',
    learn_p (Finite (1 # 2)) 3 true (constant_world (1 # 4)) = Returns (4, 1) w'
    /\ count is_pause (log w') = 3
    /\ count is_display (log w') = 4.
Proof.
  eassert (E : learn_p (Finite (1 # 2)) 3 true (constant_world (1 # 4))
               = Returns (4, 1) _) by (cbv; reflexivity).
  eexists. split; [exact E |].
  destruct (learn_p_display_counts _ _ _ _ _ _ _ E) as (Hp & Hd & _).
  split; [exact Hp | exact Hd].
Defined.

(** X9: every title set inside the loop shows counts that add up to its
    step (the flips made so far), while the title set after the loop shows
    the step [n-1] with counts that add up to [n]. *)
Theorem learn_p_titles
        (p : float) (n : Z) (plot : bool) (w : world) (a b : Z) (w' : world) :
  learn_p p n plot w = Returns (a, b) w' ->
  exists y,
    log w' = closing_calls p (n - 1) a b y
             ++ loop_calls p 0 1 1 (observed w (Z.to_nat n))
             ++ subplots :: log w
    /\ Forall title_counts_step (loop_calls p 0 1 1 (observed w (Z.to_nat n)))
    /\ (a - 1) + (b - 1) = (n - 1) + 1.
Proof.
  intros E.
  destruct (learn_p_returned_world _ _ _ _ _ _ _ E) as (Hn & Ha & Hb & ->).
  pose proof (heads_tails p (observed w (Z.to_nat n))) as Hsum.
  rewrite observed_length in Hsum.
  eexists. split; [reflexivity |].
  split; [apply loop_titles; reflexivity | lia].
Qed.

Lemma learn_p_titles_witness :
  exists w',
    learn_p (Finite (1 # 2)) 2 true (constant_world (3 # 4)) = Returns (1, 3) w'
    /\ Forall title_counts_step
         (loop_calls (Finite (1 # 2)) 0 1 1
            (observed (constant_world (3 # 4)) (Z.to_nat 2))).
Proof.
  eassert (E : learn_p (Finite (1 # 2)) 2 true (constant_world (3 # 4))
               = Returns (1, 3) _) by (cbv; reflexivity).
  eexists. split; [exact E |].
  destruct (learn_p_titles _ _ _ _ _ _ _ E) as (y & _ & H & _). exact H.
Defined.

(** ** The printed estimates *)

Lemma inject_Z_positive (z : Z) : 1 <= z -> (0 < inject_Z z)%Q.
Proof. intros Hz. change 0%Q with (inject_Z 0). rewrite <- Zlt_Qlt. lia. Qed.

(** X10: the first printed estimate of a returning call is the observed
    frequency: the number of draws below [p] over [n].  It lies in [[0,1]]
    and, unlike the mean, reaches 0 when no flip was 1 and 1 when every flip
    was 1. *)
Theorem learn_p_MAP_is_observed_frequency
        (p : float) (n : Z) (plot : bool) (w : world) (a b : Z) (w' : world) :
  learn_p p n plot w = Returns (a, b) w' ->
  (exists e d rest, log w' = print (MAP_estimate a b) e d :: rest)
  /\ MAP_estimate a b
     = (inject_Z (heads p (observed w (Z.to_nat n))) / inject_Z n)%Q
  /\ (0 <= MAP_estimate a b)%Q /\ (MAP_estimate a b <= 1)%Q
  /\ (a = 1 -> (MAP_estimate a b == 0)%Q)
  /\ (b = 1 -> (MAP_estimate a b == 1)%Q).
Proof.
  intros E.
  destruct (learn_p_returned_world _ _ _ _ _ _ _ E) as (Hn & Ha & Hb & ->).
  pose proof (heads_tails p (observed w (Z.to_nat n))) as Hsum.
  pose proof (heads_nonneg p (observed w (Z.to_nat n))) as Hh.
  pose proof (tails_nonneg p (observed w (Z.to_nat n))) as Ht.
  rewrite observed_length in Hsum.
  assert (Hpos : (0 < inject_Z (a + b - 2))%Q) by (apply inject_Z_positive; lia).
  split; [eexists; eexists; eexists; reflexivity |].
  split.
  { unfold MAP_estimate.
    replace (a - 1) with (heads p (observed w (Z.to_nat n))) by lia.
    replace (a + b - 2) with n by lia. reflexivity. }
  unfold MAP_estimate.
  split; [| split; [| split]].
  - apply Qle_shift_div_l; [exact Hpos |].
    rewrite Qmult_0_l. change 0%Q with (inject_Z 0). rewrite <- Zle_Qle. lia.
  - apply Qle_shift_div_r; [exact Hpos |].
    rewrite Qmult_1_l. rewrite <- Zle_Qle. lia.
  - intros ->. unfold Qdiv. change (inject_Z (1 - 1)) with 0%Q.
    apply Qmult_0_l.
  - intros ->. replace (a + 1 - 2) with (a - 1) by lia.
    apply Qmult_inv_r. intros H0.
    replace (a - 1) with (a + 1 - 2) in H0 by lia.
    rewrite H0 in Hpos. discriminate.
Qed.

Lemma learn_p_MAP_is_observed_frequency_witness :
  exists w',
    learn_p (Finite 1) 4 true (constant_world (1 # 3)) = Returns (5, 1) w'
    /\ (MAP_estimate 5 1 == 1)%Q.
Proof.
  eassert (E : learn_p (Finite 1) 4 true (constant_world (1 # 3))
               = Returns (5, 1) _) by (cbv; reflexivity).
  eexists. split; [exact E |].
  destruct (learn_p_MAP_is_observed_frequency _ _ _ _ _ _ _ E)
    as (_ & _ & _ & _ & _ & H).
  exact (H eq_refl).
Defined.

(** ** Calls in sequence, reordered draws, two biases *)

Lemma heads_app (p : float) (xs ys : list Q) :
  heads p (xs ++ ys) = heads p xs + heads p ys
  /\ tails p (xs ++ ys) = tails p xs + tails p ys.
Proof.
  unfold heads, tails. rewrite !filter_app, !length_app. lia.
Qed.

Lemma heads_Permutation (p : float) (xs ys : list Q) :
  Permutation xs ys -> heads p xs = heads p ys /\ tails p xs = tails p ys.
Proof.
  induction 1 as [| x xs ys _ [IHh IHt] | x y xs | xs ys zs _ [H1 H2] _ [H3 H4]].
  - split; reflexivity.
  - rewrite !heads_cons, !tails_cons, IHh, IHt. split; reflexivity.
  - rewrite !heads_cons, !tails_cons. split; lia.
  - split; congruence.
Qed.

Lemma lt_le_trans (x : Q) (p q : float) :
  lt (Finite x) p = true -> le p q = true -> lt (Finite x) q = true.
Proof.
  destruct p as [a | [|] | ], q as [b | [|] | ]; cbn [lt le negb orb andb];
    try discriminate; try reflexivity.
  intros Hxa Hab.
  assert (H1 : (x < a)%Q).
  { apply (proj2 (Qlt_alt x a)). destruct (x ?= a)%Q; congruence. }
  assert (H2 : (a <= b)%Q).
  { apply (proj2 (Qle_alt a b)). destruct (a ?= b)%Q; congruence. }
  assert (H3 : (x < b)%Q) by (eapply Qlt_le_trans; eassumption).
  now rewrite (proj1 (Qlt_alt x b) H3).
Qed.

Lemma coin_monotone (p q : float) (x : Q) :
  le p q = true -> coin p x <= coin q x.
Proof.
  intros Hpq. unfold coin.
  destruct (lt (Finite x) p) eqn:Hp.
  - now rewrite (lt_le_trans x p q Hp Hpq).
  - destruct (lt (Finite x) q); lia.
Qed.

Lemma heads_monotone (p q : float) (xs : list Q) :
  le p q = true -> heads p xs <= heads q xs /\ tails q xs <= tails p xs.
Proof.
  intros Hpq. induction xs as [| x xs [IHh IHt]].
  - split; reflexivity.
  - rewrite !heads_cons, !tails_cons.
    pose proof (coin_monotone p q x Hpq). split; lia.
Qed.

(** X12: counts of consecutive calls add up.  When a call of [n] flips is
    followed, on the same generator, by a call of [m] flips, one call of
    [n + m] flips from the first starting point returns the sums of the two
    pairs less the prior counted twice, and leaves the generator where the
    second call left it. *)
Theorem learn_p_batches_add
        (p : float) (n m : Z) (plot : bool) (w : world)
        (a1 b1 : Z) (w1 : world) (a2 b2 : Z) (w2 : world) :
  learn_p p n plot w = Returns (a1, b1) w1 ->
  learn_p p m plot w1 = Returns (a2, b2) w2 ->
  exists w3,
    learn_p p (n + m) plot w = Returns (a1 + a2 - 1, b1 + b2 - 1) w3
    /\ cursor w3 = cursor w2 /\ draws w3 = draws w2.
Proof.
  intros E1 E2.
  destruct (learn_p_returned _ _ _ _ _ _ _ E1) as (_ & -> & _).
  destruct (learn_p_returned_world _ _ _ _ _ _ _ E1) as (Hn & Ha1 & Hb1 & Hw1).
  destruct (learn_p_returned_world _ _ _ _ _ _ _ E2) as (Hm & Ha2 & Hb2 & Hw2).
  destruct (learn_p_plot_world p (n + m) w) as (a & b & Ha & Hb & E); [lia |].
  assert (Hobs : observed w (Z.to_nat (n + m))
                 = observed w (Z.to_nat n) ++ observed w1 (Z.to_nat m)).
  { rewrite Hw1. unfold observed. cbn [draws cursor].
    rewrite Z2Nat.inj_add by lia. now rewrite seq_app, map_app. }
  rewrite Hobs in Ha, Hb.
  destruct (heads_app p (observed w (Z.to_nat n)) (observed w1 (Z.to_nat m)))
    as [Hh Ht].
  eexists. split.
  - rewrite E. f_equal. f_equal; lia.
  - rewrite Hw2, Hw1. cbn [draws cursor].
    split; [rewrite Z2Nat.inj_add by lia; lia | reflexivity].
Qed.

Lemma learn_p_batches_add_witness :
  exists w1 w2 w3,
    learn_p (Finite (1 # 2)) 2 true
            (mkWorld (fun i => if (i <? 2)%nat then 1 # 5 else 4 # 5) 0 [])
      = Returns (3, 1) w1
    /\ learn_p (Finite (1 # 2)) 3 true w1 = Returns (1, 4) w2
    /\ learn_p (Finite (1 # 2)) (2 + 3) true
               (mkWorld (fun i => if (i <? 2)%nat then 1 # 5 else 4 # 5) 0 [])
       = Returns (3 + 1 - 1, 1 + 4 - 1) w3.
Proof.
  eassert (E1 : learn_p (Finite (1 # 2)) 2 true
                  (mkWorld (fun i => if (i <? 2)%nat then 1 # 5 else 4 # 5) 0 [])
                = Returns (3, 1) _) by (cbv; reflexivity).
  match type of E1 with
  | _ = Returns _ ?v =>
      eassert (E2 : learn_p (Finite (1 # 2)) 3 true v = Returns (1, 4) _)
        by (cbv; reflexivity)
  end.
  destruct (learn_p_batches_add _ _ _ _ _ _ _ _ _ _ _ E1 E2) as (w3 & E3 & _).
  eexists. eexists. exists w3.
  split; [exact E1 |]. split; [exact E2 | exact E3].
Defined.

(** X13: the order of the draws does not matter.  Two calls whose observed
    draws are the same up to order end the same way. *)
Theorem learn_p_exchangeable (p : float) (n : Z) (plot : bool) (w1 w2 : world) :
  Permutation (observed w1 (Z.to_nat n)) (observed w2 (Z.to_nat n)) ->
  result (learn_p p n plot w1) = result (learn_p p n plot w2).
Proof.
  intros Hperm.
  destruct (Z_le_gt_dec n 0) as [Hn | Hn].
  - now rewrite !learn_p_empty_range by exact Hn.
  - assert (Hn1 : 1 <= n) by lia.
    destruct plot.
    + destruct (learn_p_plot p n w1 Hn1) as (a1 & b1 & v1 & E1 & Ha1 & Hb1 & _).
      destruct (learn_p_plot p n w2 Hn1) as (a2 & b2 & v2 & E2 & Ha2 & Hb2 & _).
      destruct (heads_Permutation p _ _ Hperm) as [Hh Ht].
      rewrite E1, E2. cbn [result]. congruence.
    + now rewrite !learn_p_no_plot_world by exact Hn1.
Qed.

Lemma learn_p_exchangeable_witness :
  Permutation
    (observed (mkWorld (fun i => if (i =? 0)%nat then 1 # 5 else 4 # 5) 0 [])
              (Z.to_nat 2))
    (observed (mkWorld (fun i => if (i =? 1)%nat then 1 # 5 else 4 # 5) 0 [])
              (Z.to_nat 2))
  /\ result (learn_p (Finite (1 # 2)) 2 true
               (mkWorld (fun i => if (i =? 0)%nat then 1 # 5 else 4 # 5) 0 []))
     = inl (2, 2)
  /\ result (learn_p (Finite (1 # 2)) 2 true
               (mkWorld (fun i => if (i =? 1)%nat then 1 # 5 else 4 # 5) 0 []))
     = inl (2, 2).
Proof.
  assert (H : Permutation
    (observed (mkWorld (fun i => if (i =? 0)%nat then 1 # 5 else 4 # 5) 0 [])
              (Z.to_nat 2))
    (observed (mkWorld (fun i => if (i =? 1)%nat then 1 # 5 else 4 # 5) 0 [])
              (Z.to_nat 2))).
  { apply perm_swap. }
  split; [exact H |].
  rewrite <- (learn_p_exchangeable (Finite (1 # 2)) 2 true _ _ H).
  split; vm_compute; reflexivity.
Defined.

(** X14: a larger bias never gives fewer heads.  On the same draws, a call
    with bias [q >= p] returns an [alpha] at least as large and a [beta] at
    most as large as the call with bias [p]. *)
Theorem learn_p_monotone_in_p
        (p q : float) (n : Z) (plot : bool) (w : world)
        (ap bp : Z) (wp : world) (aq bq : Z) (wq : world) :
  le p q = true ->
  learn_p p n plot w = Returns (ap, bp) wp ->
  learn_p q n plot w = Returns (aq, bq) wq ->
  ap <= aq /\ bq <= bp.
Proof.
  intros Hpq Ep Eq.
  destruct (learn_p_returned _ _ _ _ _ _ _ Ep) as (_ & _ & Hap & Hbp & _).
  destruct (learn_p_returned _ _ _ _ _ _ _ Eq) as (_ & _ & Haq & Hbq & _).
  destruct (heads_monotone p q (observed w (Z.to_nat n)) Hpq) as [Hh Ht].
  lia.
Qed.

Lemma learn_p_monotone_in_p_witness :
  exists wp wq,
    le (Finite (1 # 4)) (Finite (3 # 4)) = true
    /\ learn_p (Finite (1 # 4)) 3 true (constant_world (1 # 2)) = Returns (1, 4) wp
    /\ learn_p (Finite (3 # 4)) 3 true (constant_world (1 # 2)) = Returns (4, 1) wq
    /\ 1 <= 4 /\ 1 <= 4.
Proof.
  assert (Hpq : le (Finite (1 # 4)) (Finite (3 # 4)) = true) by reflexivity.
  eassert (Ep : learn_p (Finite (1 # 4)) 3 true (constant_world (1 # 2))
                = Returns (1, 4) _) by (cbv; reflexivity).
  eassert (Eq : learn_p (Finite (3 # 4)) 3 true (constant_world (1 # 2))
                = Returns (4, 1) _) by (cbv; reflexivity).
  eexists. eexists.
  split; [exact Hpq |]. split; [exact Ep |]. split; [exact Eq |].
  exact (learn_p_monotone_in_p _ _ _ _ _ _ _ _ _ _ _ Hpq Ep Eq).
Defined.

(** ** The calls of the notebook and its two revisions *)

(** X15: the call with the default arguments, [learn_p(p)], returns for
    every [p] and every state of the generator: it makes 150 flips and the
    counters it returns add up to 152.  So does the last cell of the
    notebook, [learn_p(0.2331)] (the outputs stored with the cell in the two
    revisions, [(29, 123)] and [(33, 119)], are such pairs). *)
Theorem learn_p_defaults_returns :
  (forall (p : float) (w : world),
     exists a b w',
       learn_p_defaults p w = Returns (a, b) w'
       /\ a + b = 152 /\ 1 <= a /\ 1 <= b
       /\ cursor w' = (cursor w + 150)%nat)
  /\ (forall w : world,
        exists a b w', last_cell w = Returns (a, b) w' /\ a + b = 152).
Proof.
  assert (H : forall (p : float) (w : world),
             exists a b w',
               learn_p_defaults p w = Returns (a, b) w'
               /\ a + b = 152 /\ 1 <= a /\ 1 <= b
               /\ cursor w' = (cursor w + 150)%nat).
  { intros p w. unfold learn_p_defaults.
    destruct (learn_p_plot_world p 150 w) as (a & b & Ha & Hb & E); [lia |].
    pose proof (heads_tails p (observed w (Z.to_nat 150))) as Hsum.
    pose proof (heads_nonneg p (observed w (Z.to_nat 150))) as Hh.
    pose proof (tails_nonneg p (observed w (Z.to_nat 150))) as Ht.
    rewrite observed_length in Hsum.
    exists a, b. eexists. split; [exact E |].
    cbn [cursor]. repeat split; lia. }
  split; [exact H |].
  intros w. unfold last_cell.
  destruct (H (Finite (8398312585120501 # 36028797018963968)) w)
    as (a & b & w' & E & Hs & _).
  exists a, b, w'. split; assumption.
Qed.

Lemma Rev2_iteration_world (p : float) (plot : bool) (i : Z) (f : frame) (w : world) :
  Rev2.iteration p plot i f w =
    Returns (next p plot i f (draws w (cursor w)))
      (mkWorld (draws w) (S (cursor w))
         ((if plot then redraw_calls p (i + 1) (alpha f) (beta f) else [])
          ++ log w)).
Proof. destruct plot; reflexivity. Qed.

(** The two loops leave the same frame and the same generator. *)
Lemma revisions_loop (p : float) (plot : bool) (xs : list Z) :
  forall (f : frame) (w1 w2 : world),
  draws w1 = draws w2 -> cursor w1 = cursor w2 ->
  exists f' v1 v2,
    for_each xs (Rev2.iteration p plot) f w1 = Returns f' v1
    /\ for_each xs (iteration p plot) f w2 = Returns f' v2
    /\ draws v1 = draws v2 /\ cursor v1 = cursor v2.
Proof.
  induction xs as [| x xs IH]; intros f w1 w2 Hd Hc.
  - exists f, w1, w2. repeat split; assumption.
  - cbn [for_each]. unfold bind.
    rewrite Rev2_iteration_world, iteration_world, Hd, Hc.
    apply IH; cbn [draws cursor]; congruence.
Qed.

(** What follows the loop ends the same way in two worlds whose generators
    agree. *)
Lemma closing_result (p : float) (f : frame) (w1 w2 : world) :
  cursor w1 = cursor w2 ->
  result (closing p f w1) = result (closing p f w2)
  /\ cursor (final_world (closing p f w1)) = cursor (final_world (closing p f w2)).
Proof.
  intros Hc.
  unfold closing, print_estimates, truediv, bind, emit, read, ret, raise.
  destruct (step f), (Y f); cbn [result final_world cursor called]; auto.
  repeat match goal with
         | |- context [Qeq_bool ?x ?y] => destruct (Qeq_bool x y)
         end;
    cbn [result final_world cursor called]; auto.
Qed.

(** X16: the two revisions of [learn_p] end the same way, with the same pair
    or the same exception, and consume the same draws; they differ in the
    titles drawn inside the loop only. *)
Theorem revisions_agree (p : float) (n : Z) (plot : bool) (w : world) :
  result (Rev2.learn_p p n plot w) = result (learn_p p n plot w)
  /\ cursor (final_world (Rev2.learn_p p n plot w))
     = cursor (final_world (learn_p p n plot w)).
Proof.
  destruct (revisions_loop p plot (range n) prior
              (called subplots w) (called subplots w) eq_refl eq_refl)
    as (f & v1 & v2 & E1 & E2 & _ & Hc).
  change (Rev2.learn_p p n plot w)
    with (bind (for_each (range n) (Rev2.iteration p plot) prior) (closing p)
               (called subplots w)).
  change (learn_p p n plot w)
    with (bind (for_each (range n) (iteration p plot) prior) (closing p)
               (called subplots w)).
  unfold bind. rewrite E1, E2.
  apply closing_result. exact Hc.
Qed.
